(** * Potter-NER: the request handler of [app.py]

    A shallow embedding of the FastAPI application in [src/app.py]:
    the request model [PredictIn], the handlers [predict] and [health],
    the module-level loading of the spaCy pipeline, and the properties
    of the response they build.

    Python values are modelled as follows.
    - [str] is a list of Unicode code points ([N]); offsets count code
      points, as Python's indexing does.
    - [Optional[T]] is [option T]; [None] is [None].
    - the spaCy pipeline is an opaque callable: the handler only reads
      [doc.ents], the tokens of [doc], and per span [start_char],
      [end_char], [label_] and [text].
    - exceptions are values of [exn]; a computation runs in a small
      state-and-error monad whose state is the trace of calls made into
      the spaCy library. *)

From Stdlib Require Import List ZArith NArith Bool String Ascii Lia.
Import ListNotations.

(* ------------------------------------------------------------------ *)
(** ** Python strings *)

Module PyStr.

Definition char := N.
Definition str := list char.

(** A Rocq literal read as a Python string (one code point per character). *)
Definition lit (s : string) : str := map N_of_ascii (list_ascii_of_string s).

(** [str.isspace] on one code point: the table CPython consults for
    [str.strip()] called with no argument. *)
Definition isspace (c : char) : bool :=
  (((9 <=? c) && (c <=? 13)) || ((28 <=? c) && (c <=? 32))
   || (c =? 133) || (c =? 160) || (c =? 5760)
   || ((8192 <=? c) && (c <=? 8202))
   || (c =? 8232) || (c =? 8233) || (c =? 8239) || (c =? 8287)
   || (c =? 12288))%N.

Fixpoint drop_while (p : char -> bool) (s : str) : str :=
  match s with
  | [] => []
  | c :: s' => if p c then drop_while p s' else s
  end.

Fixpoint take_while (p : char -> bool) (s : str) : str :=
  match s with
  | [] => []
  | c :: s' => if p c then c :: take_while p s' else []
  end.

Definition lstrip (s : str) : str := drop_while isspace s.
Definition rstrip (s : str) : str := rev (drop_while isspace (rev s)).

(** [s.strip()] *)
Definition strip (s : str) : str := rstrip (lstrip s).

(** Truth value of a sequence: [bool(s)] is [len(s) != 0]. *)
Definition truthy {A} (s : list A) : bool :=
  match s with [] => false | _ :: _ => true end.

(** [a or b] on two sequences. *)
Definition or_ {A} (a b : list A) : list A := if truthy a then a else b.

(** [a or b] where [a] may be [None]. *)
Definition opt_or {A} (a : option (list A)) (b : list A) : list A :=
  match a with
  | Some x => or_ x b
  | None => b
  end.

(** One bound of a slice, as [PySlice_AdjustIndices] normalises it for a
    step of 1: a negative bound counts from the end, and both are clamped
    to [0, len]. *)
Definition adjust_index (len i : Z) : Z :=
  if (i <? 0)%Z then Z.max 0 (i + len) else Z.min i len.

(** [s[lo:hi]] *)
Definition slice (s : str) (lo hi : Z) : str :=
  let len := Z.of_nat (List.length s) in
  let a := adjust_index len lo in
  let b := adjust_index len hi in
  firstn (Z.to_nat (b - a)) (skipn (Z.to_nat a) s).

End PyStr.

Import PyStr.

(* ------------------------------------------------------------------ *)
(** ** What the handler reads from spaCy *)

(** A token of a [Doc]: only [t.text] is read. *)
Module Token.
Record t := mk { text : str }.
End Token.

(** An entity span of a [Doc]: [ent.start_char], [ent.end_char],
    [ent.label_] and [ent.text], each as the pipeline reports it. *)
Module Span.
Record t := mk { start_char : Z; end_char : Z; label_ : str; text : str }.
End Span.

(** A processed document: iterating it yields its tokens, [doc.ents] its
    entity spans. *)
Module Doc.
Record t := mk { tokens : list Token.t; ents : list Span.t }.
End Doc.

(** The loaded pipeline [nlp], called as [nlp(text)]; [None] stands for
    an exception raised inside the library. *)
Definition Language := str -> option Doc.t.

(* ------------------------------------------------------------------ *)
(** ** Request and response data *)

(** [class PredictIn(BaseModel)]: [text] is a required [str]; [tokens]
    and [domain] are optional and default to [None]. *)
Module PredictIn.
Record t := mk {
  text : str;
  tokens : option (list str);
  domain : option str
}.
End PredictIn.

(** One element of the [entities] list of the response. *)
Module EntityRecord.
Record t := mk { start : Z; end_ : Z; label : str; text : str }.
End EntityRecord.

(** The dictionary [predict] returns, one field per key. *)
Module PredictOut.
Record t := mk {
  text : str;
  entities : list EntityRecord.t;
  tokens : list str;
  domain : str
}.
End PredictOut.

(** A JSON object with string values, as an ordered list of its items. *)
Definition dict := list (str * str).

(** The JSON body of a POST to [/predict], before [PredictIn] validates
    it.  A field is [None] when its key is missing from the object or
    bound to [null]. *)
Module Body.
Record t := mk {
  text : option str;
  tokens : option (list str);
  domain : option str
}.
End Body.

(* ------------------------------------------------------------------ *)
(** ** Exceptions, the trace of library calls, and the monad *)

Inductive exn :=
| HTTPException (status_code : Z) (detail : str)
| RequestValidationError (loc : list str)
| RuntimeError (msg : str)
| LibraryError.

(** Calls made into the spaCy library, oldest first. *)
Inductive event :=
| SpacyLoad (name : str)
| NlpCall (text : str).

Definition world := list event.

Definition M (A : Type) : Type := world -> (exn + A) * world.

Definition ret {A} (a : A) : M A := fun w => (inr a, w).

Definition raise {A} (e : exn) : M A := fun w => (inl e, w).

Definition bind {A B} (m : M A) (k : A -> M B) : M B :=
  fun w =>
    match m w with
    | (inr a, w') => k a w'
    | (inl e, w') => (inl e, w')
    end.

(** [try: m  except Exception: h] *)
Definition try_except {A} (m : M A) (h : exn -> M A) : M A :=
  fun w =>
    match m w with
    | (inr a, w') => (inr a, w')
    | (inl e, w') => h e w'
    end.

Notation "x <- m ;; k" := (bind m (fun x => k))
  (at level 61, m at next level, right associativity).

(** [spacy.load(name)] against an installation [installed] that maps a
    model name to the pipeline it holds, if any. *)
Definition spacy_load (installed : str -> option Language) (name : str)
  : M Language :=
  fun w =>
    (match installed name with
     | Some l => inr l
     | None => inl LibraryError
     end, w ++ [SpacyLoad name]).

(** [nlp(text)] *)
Definition call (nlp : Language) (text : str) : M Doc.t :=
  fun w =>
    (match nlp text with
     | Some d => inr d
     | None => inl LibraryError
     end, w ++ [NlpCall text]).

(* ------------------------------------------------------------------ *)
(** ** The application *)

(** Lines 20-23: the module-level load of the pipeline. *)
Definition load_nlp (installed : str -> option Language) : M Language :=
  try_except
    (spacy_load installed (lit "en_core_web_sm"))
    (fun _ => raise (RuntimeError
                       (lit "Run: python -m spacy download en_core_web_sm"))).

(** The dictionary built for one [ent] of [doc.ents]. *)
Definition entity_record (ent : Span.t) : EntityRecord.t :=
  {| EntityRecord.start := Span.start_char ent;
     EntityRecord.end_ := Span.end_char ent;
     EntityRecord.label := Span.label_ ent;
     EntityRecord.text := Span.text ent |}.

(** Lines 31-43. *)
Definition predict (nlp : Language) (payload : PredictIn.t)
  : M PredictOut.t :=
  let text := strip (or_ (PredictIn.text payload) []) in
  if negb (truthy text) then
    raise (HTTPException 400 (lit "Text is required"))
  else
    doc <- call nlp text ;;
    let entities := map entity_record (Doc.ents doc) in
    let tokens :=
      match PredictIn.tokens payload with
      | Some l => if truthy l then l else map Token.text (Doc.tokens doc)
      | None => map Token.text (Doc.tokens doc)
      end in
    ret {| PredictOut.text := text;
           PredictOut.entities := entities;
           PredictOut.tokens := tokens;
           PredictOut.domain := opt_or (PredictIn.domain payload) [] |}.

(** Lines 45-47. *)
Definition health : M dict := ret [(lit "status", lit "ok")].

(** Construction of a [PredictIn] from a request body: a required field
    that is missing (or null) fails validation, naming the field. *)
Definition validate (b : Body.t) : M PredictIn.t :=
  match Body.text b with
  | Some s =>
      ret {| PredictIn.text := s;
             PredictIn.tokens := Body.tokens b;
             PredictIn.domain := Body.domain b |}
  | None => raise (RequestValidationError [lit "body"; lit "text"])
  end.

(** The route [POST /predict]: the body is validated into the declared
    parameter type, then the handler runs. *)
Definition post_predict (nlp : Language) (b : Body.t) : M PredictOut.t :=
  payload <- validate b ;;
  predict nlp payload.

(** A string the UTF-8 encoder accepts: it holds no surrogate code point
    (U+D800 to U+DFFF). *)
Definition encodable (s : str) : bool :=
  forallb (fun c => negb ((55296 <=? c) && (c <=? 57343))%N) s.

(** The returned dictionary can be written out as the JSON reply: every
    string in it is encodable. *)
Definition renderable (r : PredictOut.t) : bool :=
  encodable (PredictOut.text r)
  && forallb (fun e => encodable (EntityRecord.label e)
                       && encodable (EntityRecord.text e))
             (PredictOut.entities r)
  && forallb encodable (PredictOut.tokens r)
  && encodable (PredictOut.domain r).

(** The status code the framework answers with for an outcome of the
    [/predict] route.  A returned dictionary is answered 200 when it can
    be written out, and 500 when encoding it fails. *)
Definition status_of (r : exn + PredictOut.t) : Z :=
  match r with
  | inr resp => if renderable resp then 200 else 500
  | inl (HTTPException code _) => code
  | inl (RequestValidationError _) => 422
  | inl _ => 500
  end.

Definition client_error (code : Z) : bool := ((400 <=? code) && (code <? 500))%Z.
Definition server_fault (code : Z) : bool := (500 <=? code)%Z.

(** Requests the running application accepts, and what it answers. *)
Inductive request :=
| POST_predict (b : Body.t)
| GET_health.

Inductive reply :=
| PredictReply (r : exn + PredictOut.t)
| HealthReply (r : exn + dict).

Definition dispatch (nlp : Language) (req : request) (w : world)
  : reply * world :=
  match req with
  | POST_predict b => let (r, w') := post_predict nlp b w in (PredictReply r, w')
  | GET_health => let (r, w') := health w in (HealthReply r, w')
  end.

Fixpoint serve (nlp : Language) (reqs : list request) (w : world)
  : list reply * world :=
  match reqs with
  | [] => ([], w)
  | req :: rest =>
      let (r, w1) := dispatch nlp req w in
      let (rs, w2) := serve nlp rest w1 in
      (r :: rs, w2)
  end.

(** Line 50, [uvicorn.run("app:app", ..., reload=True)]: the serving
    process imports the module [app] by name, so the module body, and
    with it the load of lines 20-23, runs there once more; the
    application then answers the requests with the pipeline bound by
    that import.  [reqs] are the requests one serving process receives;
    a change of a watched file ends it and starts another the same way. *)
Definition uvicorn_run (installed : str -> option Language)
  (reqs : list request) : M (list reply) :=
  nlp <- load_nlp installed ;;
  (fun w => let (rs, w') := serve nlp reqs w in (inr rs, w')).

(** The whole process, started as [python app.py]: the module body runs
    as [__main__]; only if it completes do lines 49-50 start the server. *)
Definition run (installed : str -> option Language) (reqs : list request)
  (w : world) : (exn + list reply) * world :=
  (_ <- load_nlp installed ;; uvicorn_run installed reqs) w.

(** Number of [spacy.load] and of [nlp(...)] calls in a trace. *)
Definition is_load (e : event) : bool :=
  match e with SpacyLoad _ => true | NlpCall _ => false end.
Definition is_nlp_call (e : event) : bool :=
  match e with NlpCall _ => true | SpacyLoad _ => false end.
Definition loads (w : world) : nat := List.length (filter is_load w).
Definition nlp_calls (w : world) : nat := List.length (filter is_nlp_call w).

(* ------------------------------------------------------------------ *)
(** ** Specification-side notions *)

(** A string made of whitespace only (the empty string included). *)
Definition blank (s : str) : bool := forallb isspace s.

(** [t] is [s] with leading and trailing whitespace removed: [s] is [t]
    between two runs of whitespace, and [t] neither starts nor ends with
    a whitespace character. *)
Definition trimmed_of (s t : str) : Prop :=
  exists l r,
    s = l ++ t ++ r /\ blank l = true /\ blank r = true /\
    (forall c t', t = c :: t' -> isspace c = false) /\
    (forall t' c, t = t' ++ [c] -> isspace c = false).



(** The token list of the response, by cases on what the caller sent. *)
Definition chosen_tokens (sent : option (list str)) (doc : Doc.t) : list str :=
  match sent with
  | Some l => if truthy l then l else map Token.text (Doc.tokens doc)
  | None => map Token.text (Doc.tokens doc)
  end.

(** The outcome is the handler's own rejection: status 400 with the
    detail "Text is required". *)
Definition is_text_required {A} (r : exn + A) : bool :=
  match r with
  | inl (HTTPException code detail) =>
      (code =? 400)%Z &&
      (if list_eq_dec N.eq_dec detail (lit "Text is required") then true else false)
  | _ => false
  end.


(** What [GET /health] answers. *)
Definition status_ok : dict := [(lit "status", lit "ok")].

(** Number of whitespace characters [strip] removes in front of [s]. *)
Definition leading (s : str) : nat := List.length (take_while isspace s).

(** The payload [p] with another [text]. *)
Definition with_text (p : PredictIn.t) (s : str) : PredictIn.t :=
  {| PredictIn.text := s;
     PredictIn.tokens := PredictIn.tokens p;
     PredictIn.domain := PredictIn.domain p |}.

(** Two outcomes carry the same annotation: the same failure, or
    responses with the same [text] and the same [entities]. *)
Definition same_annotation (a b : exn + PredictOut.t) : Prop :=
  match a, b with
  | inl e, inl e' => e = e'
  | inr r, inr r' =>
      PredictOut.text r = PredictOut.text r' /\
      PredictOut.entities r = PredictOut.entities r'
  | _, _ => False
  end.


(* ------------------------------------------------------------------ *)
(** ** A small executable pipeline, used to run the handlers *)

Module Toy.

(** Words of [s] with the offset each starts at; [cur] holds the word
    being read, reversed, and [from] where it started. *)
Fixpoint words (s : str) (pos : Z) (cur : str) (from : Z) : list (Z * str) :=
  match s with
  | [] => if truthy cur then [(from, rev cur)] else []
  | c :: s' =>
      if isspace c
      then (if truthy cur then [(from, rev cur)] else [])
             ++ words s' (pos + 1) [] (pos + 1)
      else words s' (pos + 1) (c :: cur) from
  end.

Definition capitalised (w : str) : bool :=
  match w with
  | c :: _ => ((65 <=? c) && (c <=? 90))%N
  | [] => false
  end.

Definition span_of (w : Z * str) : Span.t :=
  {| Span.start_char := fst w;
     Span.end_char := fst w + Z.of_nat (List.length (snd w));
     Span.label_ := lit "PROPN";
     Span.text := snd w |}.

(** Tokens are the whitespace-separated words; every capitalised word is
    an entity. *)
Definition nlp : Language :=
  fun text =>
    let ws := words text 0 [] 0 in
    Some {| Doc.tokens := map (fun w => Token.mk (snd w)) ws;
            Doc.ents := map span_of (filter (fun w => capitalised (snd w)) ws) |}.

(** A pipeline whose every call raises. *)
Definition broken : Language := fun _ => None.

(** An installation that holds the model the application asks for. *)
Definition installed : str -> option Language :=
  fun name =>
    if list_eq_dec N.eq_dec name (lit "en_core_web_sm") then Some nlp else None.

(** An installation without any model. *)
Definition empty : str -> option Language := fun _ => None.

Definition hello : PredictIn.t :=
  {| PredictIn.text := lit "  Harry met Hermione at Hogwarts.  ";
     PredictIn.tokens := None;
     PredictIn.domain := None |}.

Definition override : PredictIn.t :=
  {| PredictIn.text := lit "Hello world";
     PredictIn.tokens := Some [lit "Hi"; lit "there"];
     PredictIn.domain := Some (lit "test") |}.

Definition spaces : PredictIn.t :=
  {| PredictIn.text := lit "   ";
     PredictIn.tokens := None;
     PredictIn.domain := None |}.

(** The answers the handler gives for [hello] and [override]. *)
Definition hello_text : str := lit "Harry met Hermione at Hogwarts.".

Definition hello_out : PredictOut.t :=
  {| PredictOut.text := hello_text;
     PredictOut.entities :=
       [ EntityRecord.mk 0 5 (lit "PROPN") (lit "Harry");
         EntityRecord.mk 10 18 (lit "PROPN") (lit "Hermione");
         EntityRecord.mk 22 31 (lit "PROPN") (lit "Hogwarts.") ];
     PredictOut.tokens :=
       [lit "Harry"; lit "met"; lit "Hermione"; lit "at"; lit "Hogwarts."];
     PredictOut.domain := [] |}.

Definition hello_doc : Doc.t :=
  {| Doc.tokens :=
       map Token.mk
         [lit "Harry"; lit "met"; lit "Hermione"; lit "at"; lit "Hogwarts."];
     Doc.ents :=
       [ Span.mk 0 5 (lit "PROPN") (lit "Harry");
         Span.mk 10 18 (lit "PROPN") (lit "Hermione");
         Span.mk 22 31 (lit "PROPN") (lit "Hogwarts.") ] |}.

Definition override_out : PredictOut.t :=
  {| PredictOut.text := lit "Hello world";
     PredictOut.entities := [ EntityRecord.mk 0 5 (lit "PROPN") (lit "Hello") ];
     PredictOut.tokens := [lit "Hi"; lit "there"];
     PredictOut.domain := lit "test" |}.




(** Request bodies: one with a blank text, one without the field. *)
Definition blank_body : Body.t := Body.mk (Some (lit "   ")) None None.

End Toy.

(* ------------------------------------------------------------------ *)
(** ** Lemmas on [strip] *)

Section DropWhile.
Variable p : char -> bool.

Lemma take_drop_while (s : str) : take_while p s ++ drop_while p s = s.
Proof.
  induction s as [|c s IH]; simpl; [reflexivity|].
  destruct (p c); simpl; [now rewrite IH | reflexivity].
Qed.

Lemma take_while_all (s : str) : forallb p (take_while p s) = true.
Proof.
  induction s as [|c s IH]; simpl; [reflexivity|].
  destruct (p c) eqn:E; simpl; [now rewrite E | reflexivity].
Qed.

Lemma drop_while_head (s : str) (c : char) (t : str) :
  drop_while p s = c :: t -> p c = false.
Proof.
  induction s as [|d s IH]; simpl; [discriminate|].
  destruct (p d) eqn:E; [exact IH|].
  intros H; injection H as -> _; exact E.
Qed.

Lemma drop_while_all (s : str) : forallb p s = true -> drop_while p s = [].
Proof.
  induction s as [|c s IH]; simpl; [reflexivity|].
  destruct (p c); simpl; [exact IH | discriminate].
Qed.

Lemma drop_while_nil_all (s : str) : drop_while p s = [] -> forallb p s = true.
Proof.
  induction s as [|c s IH]; simpl; [reflexivity|].
  destruct (p c); simpl; [exact IH | discriminate].
Qed.

Lemma drop_while_app_all (l s : str) :
  forallb p l = true -> drop_while p (l ++ s) = drop_while p s.
Proof.
  induction l as [|c l IH]; simpl; [reflexivity|].
  destruct (p c); simpl; [exact IH | discriminate].
Qed.

Lemma drop_while_stop (c : char) (s : str) :
  p c = false -> drop_while p (c :: s) = c :: s.
Proof. intros H; simpl; now rewrite H. Qed.

Lemma drop_while_suffix (s : str) : exists l, s = l ++ drop_while p s /\ forallb p l = true.
Proof.
  exists (take_while p s); split;
    [symmetry; apply take_drop_while | apply take_while_all].
Qed.

End DropWhile.

Lemma forallb_rev (p : char -> bool) (s : str) : forallb p (rev s) = forallb p s.
Proof.
  induction s as [|c s IH]; simpl; [reflexivity|].
  rewrite forallb_app, IH; simpl. rewrite andb_true_r. apply andb_comm.
Qed.

Lemma blank_app (a b : str) : blank (a ++ b) = blank a && blank b.
Proof. apply forallb_app. Qed.

(** [strip] yields the empty string exactly on whitespace-only input. *)
Lemma strip_nil_iff (s : str) : strip s = [] <-> blank s = true.
Proof.
  unfold strip, rstrip, lstrip, blank. split.
  - intros H.
    apply (f_equal (@rev char)) in H. rewrite rev_involutive in H. simpl in H.
    apply drop_while_nil_all in H. rewrite forallb_rev in H.
    destruct (drop_while_suffix isspace s) as (l & Hs & Hl).
    rewrite Hs, forallb_app, Hl, H. reflexivity.
  - intros H. rewrite (drop_while_all _ _ H). reflexivity.
Qed.

Lemma strip_not_nil_iff (s : str) : truthy (strip s) = true <-> blank s = false.
Proof.
  destruct (strip s) eqn:E; simpl.
  - apply strip_nil_iff in E. rewrite E. split; discriminate.
  - split; [|reflexivity]. intros _.
    destruct (blank s) eqn:B; [|reflexivity].
    apply strip_nil_iff in B. congruence.
Qed.

(** [strip] meets the specification-side notion of trimming. *)
Lemma strip_trimmed (s : str) : trimmed_of s (strip s).
Proof.
  unfold trimmed_of, strip, rstrip, lstrip.
  destruct (drop_while_suffix isspace s) as (l & Hs & Hl).
  set (m := drop_while isspace s) in *.
  destruct (drop_while_suffix isspace (rev m)) as (r & Hm & Hr).
  set (t := drop_while isspace (rev m)) in *.
  exists l, (rev r). repeat split.
  - rewrite <- rev_app_distr, <- Hm, rev_involutive. exact Hs.
  - exact Hl.
  - unfold blank. rewrite forallb_rev. exact Hr.
  - intros c t' Ht.
    destruct r as [|x r].
    + simpl in Hm. rewrite <- Hm, rev_involutive in Ht.
      apply (drop_while_head isspace s _ _ Ht).
    + assert (Hm' : m = rev t ++ rev (x :: r))
        by (rewrite <- rev_app_distr, <- Hm, rev_involutive; reflexivity).
      rewrite Ht in Hm'. simpl in Hm'.
      apply (drop_while_head isspace s c (t' ++ rev r ++ [x])).
      fold m. rewrite Hm'. reflexivity.
  - intros t' c Ht.
    apply (f_equal (@rev char)) in Ht.
    rewrite rev_involutive, rev_app_distr in Ht. simpl in Ht.
    apply (drop_while_head isspace (rev m) _ _ Ht).
Qed.

(** ... and is the only string that does. *)
Lemma trimmed_unique (s t : str) : trimmed_of s t -> t = strip s.
Proof.
  intros (l & r & -> & Hl & Hr & Hhd & Hlast).
  unfold strip, rstrip, lstrip.
  rewrite (drop_while_app_all isspace l _ Hl).
  destruct t as [|c t'].
  - simpl. rewrite (drop_while_all _ _ Hr). reflexivity.
  - rewrite <- app_comm_cons, (drop_while_stop isspace _ _ (Hhd c t' eq_refl)).
    rewrite app_comm_cons, rev_app_distr.
    rewrite drop_while_app_all by (rewrite forallb_rev; exact Hr).
    destruct (rev (c :: t')) as [|x y] eqn:E.
    + apply (f_equal (@rev char)) in E. rewrite rev_involutive in E. discriminate.
    + assert (Hx : isspace x = false).
      { apply (Hlast (rev y) x).
        apply (f_equal (@rev char)) in E. rewrite rev_involutive in E. exact E. }
      rewrite (drop_while_stop isspace _ _ Hx), <- E, rev_involutive. reflexivity.
Qed.

(* ------------------------------------------------------------------ *)
(** ** The equations of [predict] *)

Lemma or_nil_r {A} (a : list A) : or_ a [] = a.
Proof. destruct a; reflexivity. Qed.

Lemma opt_or_nil (d : option str) :
  opt_or d [] = match d with Some x => x | None => [] end.
Proof. destruct d as [x|]; [apply or_nil_r | reflexivity]. Qed.

Section Handler.
Variable nlp : Language.

(** Blank text: the handler raises before anything else happens. *)
Lemma predict_blank (p : PredictIn.t) (w : world) :
  blank (PredictIn.text p) = true ->
  predict nlp p w = (inl (HTTPException 400 (lit "Text is required")), w).
Proof.
  intros H. unfold predict. rewrite or_nil_r.
  apply strip_nil_iff in H. rewrite H. reflexivity.
Qed.

(** Any other text: the pipeline is called once on the stripped text, and
    its answer decides the outcome. *)
Lemma predict_valid (p : PredictIn.t) (w : world) :
  blank (PredictIn.text p) = false ->
  predict nlp p w =
  (match nlp (strip (PredictIn.text p)) with
   | Some doc =>
       inr {| PredictOut.text := strip (PredictIn.text p);
              PredictOut.entities := map entity_record (Doc.ents doc);
              PredictOut.tokens := chosen_tokens (PredictIn.tokens p) doc;
              PredictOut.domain := opt_or (PredictIn.domain p) [] |}
   | None => inl LibraryError
   end,
   w ++ [NlpCall (strip (PredictIn.text p))]).
Proof.
  intros H. unfold predict. rewrite or_nil_r.
  apply strip_not_nil_iff in H. rewrite H. simpl.
  unfold bind, call, ret, chosen_tokens.
  destruct (nlp (strip (PredictIn.text p))) as [doc|]; reflexivity.
Qed.

(** What a successful call tells about its input and its result. *)
Lemma predict_ok_inv (p : PredictIn.t) (w w' : world) (resp : PredictOut.t) :
  predict nlp p w = (inr resp, w') ->
  blank (PredictIn.text p) = false /\
  w' = w ++ [NlpCall (strip (PredictIn.text p))] /\
  exists doc,
    nlp (strip (PredictIn.text p)) = Some doc /\
    resp = {| PredictOut.text := strip (PredictIn.text p);
              PredictOut.entities := map entity_record (Doc.ents doc);
              PredictOut.tokens := chosen_tokens (PredictIn.tokens p) doc;
              PredictOut.domain := opt_or (PredictIn.domain p) [] |}.
Proof.
  destruct (blank (PredictIn.text p)) eqn:B.
  - rewrite (predict_blank p w B). discriminate.
  - rewrite (predict_valid p w B).
    destruct (nlp (strip (PredictIn.text p))) as [doc|]; [|discriminate].
    intros H. injection H as <- <-.
    split; [reflexivity|]. split; [reflexivity|].
    exists doc. split; reflexivity.
Qed.

(** A body that carries a text reaches the handler unchanged. *)
Lemma post_predict_some (b : Body.t) (s : str) (w : world) :
  Body.text b = Some s ->
  post_predict nlp b w =
  predict nlp {| PredictIn.text := s;
                 PredictIn.tokens := Body.tokens b;
                 PredictIn.domain := Body.domain b |} w.
Proof. intros H. unfold post_predict, validate, bind. rewrite H. reflexivity. Qed.

(** A body without a text does not. *)
Lemma post_predict_none (b : Body.t) (w : world) :
  Body.text b = None ->
  post_predict nlp b w =
  (inl (RequestValidationError [lit "body"; lit "text"]), w).
Proof. intros H. unfold post_predict, validate, bind. rewrite H. reflexivity. Qed.

End Handler.

(** With a non-blank text and a pipeline that answers, the call succeeds. *)
Lemma predict_succeeds (nlp : Language) (p : PredictIn.t) (w : world) (doc : Doc.t) :
  blank (PredictIn.text p) = false ->
  nlp (strip (PredictIn.text p)) = Some doc ->
  exists resp,
    predict nlp p w = (inr resp, w ++ [NlpCall (strip (PredictIn.text p))]).
Proof.
  intros B D. rewrite (predict_valid nlp p w B), D. eexists. reflexivity.
Qed.

(** With a non-blank text and a pipeline that raises, the failure is the
    library's, not the handler's. *)
Lemma predict_library_error (nlp : Language) (p : PredictIn.t) (w : world) :
  blank (PredictIn.text p) = false ->
  nlp (strip (PredictIn.text p)) = None ->
  predict nlp p w = (inl LibraryError, w ++ [NlpCall (strip (PredictIn.text p))]).
Proof. intros B D. rewrite (predict_valid nlp p w B), D. reflexivity. Qed.

(* ------------------------------------------------------------------ *)
(** ** Rejection of requests without usable text *)




(** C10.  When [predict] fails with the blank-text error, the trace of
    library calls is the one it started with: the pipeline was not
    called. *)
Theorem rejection_precedes_model_call
  (nlp : Language) (p : PredictIn.t) (w w' : world) :
  predict nlp p w = (inl (HTTPException 400 (lit "Text is required")), w') ->
  w' = w /\ nlp_calls w' = nlp_calls w /\ blank (PredictIn.text p) = true.
Proof.
  destruct (blank (PredictIn.text p)) eqn:B.
  - rewrite (predict_blank nlp p w B). intros H. injection H as <-.
    repeat split.
  - rewrite (predict_valid nlp p w B).
    destruct (nlp (strip (PredictIn.text p))); discriminate.
Qed.

Lemma rejection_precedes_model_call_witness :
  [SpacyLoad (lit "en_core_web_sm")] = [SpacyLoad (lit "en_core_web_sm")] /\
  nlp_calls [SpacyLoad (lit "en_core_web_sm")] =
    nlp_calls [SpacyLoad (lit "en_core_web_sm")] /\
  blank (PredictIn.text Toy.spaces) = true.
Proof.
  apply (rejection_precedes_model_call Toy.nlp Toy.spaces
           [SpacyLoad (lit "en_core_web_sm")] [SpacyLoad (lit "en_core_web_sm")]).
  reflexivity.
Defined.

(* ------------------------------------------------------------------ *)
(** ** The fields of a successful response *)

Section Response.
Variable nlp : Language.
Variables (p : PredictIn.t) (w w' : world) (resp : PredictOut.t).

(** C2.  When the caller sends a non-empty [tokens] list, the response
    carries exactly that list, whatever the pipeline's own tokens are. *)
Theorem caller_tokens_verbatim (l : list str) :
  predict nlp p w = (inr resp, w') ->
  PredictIn.tokens p = Some l ->
  truthy l = true ->
  PredictOut.tokens resp = l.
Proof.
  intros Hok Ht Hl.
  destruct (predict_ok_inv nlp p w w' resp Hok) as (_ & _ & doc & _ & ->).
  simpl. unfold chosen_tokens. rewrite Ht, Hl. reflexivity.
Qed.

(** C3.  When the caller sends no [tokens], or an empty list, the
    response carries the texts of the tokens of the document the pipeline
    built from the stripped text, in order. *)
Theorem model_tokens_by_default :
  predict nlp p w = (inr resp, w') ->
  PredictIn.tokens p = None \/ PredictIn.tokens p = Some [] ->
  exists doc,
    nlp (strip (PredictIn.text p)) = Some doc /\
    PredictOut.tokens resp = map Token.text (Doc.tokens doc).
Proof.
  intros Hok Ht.
  destruct (predict_ok_inv nlp p w w' resp Hok) as (_ & _ & doc & Hd & ->).
  exists doc. split; [exact Hd|].
  simpl. unfold chosen_tokens. destruct Ht as [-> | ->]; reflexivity.
Qed.

(** C4.  The response's [text] is the request's [text] stripped, that is,
    with its leading and trailing whitespace removed; it is not empty. *)
Theorem response_text_is_trimmed :
  predict nlp p w = (inr resp, w') ->
  PredictOut.text resp = strip (PredictIn.text p) /\
  trimmed_of (PredictIn.text p) (PredictOut.text resp) /\
  truthy (PredictOut.text resp) = true.
Proof.
  intros Hok.
  destruct (predict_ok_inv nlp p w w' resp Hok) as (B & _ & doc & _ & ->).
  simpl. split; [reflexivity|]. split.
  - apply strip_trimmed.
  - apply strip_not_nil_iff. exact B.
Qed.


(** C6.  The response holds one record per span of [doc.ents], in the
    pipeline's order, each with the span's [start_char], [end_char] and
    [label_] copied. *)
Theorem entities_mirror_model :
  predict nlp p w = (inr resp, w') ->
  exists doc,
    nlp (strip (PredictIn.text p)) = Some doc /\
    PredictOut.entities resp = map entity_record (Doc.ents doc) /\
    List.length (PredictOut.entities resp) = List.length (Doc.ents doc) /\
    map EntityRecord.start (PredictOut.entities resp)
      = map Span.start_char (Doc.ents doc) /\
    map EntityRecord.end_ (PredictOut.entities resp)
      = map Span.end_char (Doc.ents doc) /\
    map EntityRecord.label (PredictOut.entities resp)
      = map Span.label_ (Doc.ents doc) /\
    forall i,
      nth_error (PredictOut.entities resp) i
      = option_map entity_record (nth_error (Doc.ents doc) i).
Proof.
  intros Hok.
  destruct (predict_ok_inv nlp p w w' resp Hok) as (_ & _ & doc & Hd & ->).
  exists doc. simpl. split; [exact Hd|]. split; [reflexivity|].
  split; [apply length_map|].
  repeat split; try (rewrite map_map; reflexivity).
  intros i. apply nth_error_map.
Qed.

(** C7.  The response's [domain] is the caller's [domain] when one was
    sent, and the empty string when none was. *)
Theorem domain_echoed :
  predict nlp p w = (inr resp, w') ->
  PredictOut.domain resp =
  match PredictIn.domain p with
  | Some d => d
  | None => []
  end.
Proof.
  intros Hok.
  destruct (predict_ok_inv nlp p w w' resp Hok) as (_ & _ & doc & _ & ->).
  simpl. apply opt_or_nil.
Qed.

End Response.

Lemma caller_tokens_verbatim_witness :
  PredictOut.tokens Toy.override_out = [lit "Hi"; lit "there"].
Proof.
  apply (caller_tokens_verbatim Toy.nlp Toy.override
           [] [NlpCall (lit "Hello world")] Toy.override_out);
    reflexivity.
Defined.

Lemma model_tokens_by_default_witness :
  exists doc,
    Toy.nlp (strip (PredictIn.text Toy.hello)) = Some doc /\
    PredictOut.tokens Toy.hello_out = map Token.text (Doc.tokens doc).
Proof.
  apply (model_tokens_by_default Toy.nlp Toy.hello
           [] [NlpCall Toy.hello_text] Toy.hello_out);
    [reflexivity | left; reflexivity].
Defined.

Lemma response_text_is_trimmed_witness :
  PredictOut.text Toy.hello_out = strip (PredictIn.text Toy.hello) /\
  trimmed_of (PredictIn.text Toy.hello) (PredictOut.text Toy.hello_out) /\
  truthy (PredictOut.text Toy.hello_out) = true.
Proof.
  apply (response_text_is_trimmed Toy.nlp Toy.hello
           [] [NlpCall Toy.hello_text] Toy.hello_out).
  reflexivity.
Defined.



Lemma entities_mirror_model_witness :
  exists doc,
    Toy.nlp (strip (PredictIn.text Toy.hello)) = Some doc /\
    PredictOut.entities Toy.hello_out = map entity_record (Doc.ents doc) /\
    List.length (PredictOut.entities Toy.hello_out) = List.length (Doc.ents doc) /\
    map EntityRecord.start (PredictOut.entities Toy.hello_out)
      = map Span.start_char (Doc.ents doc) /\
    map EntityRecord.end_ (PredictOut.entities Toy.hello_out)
      = map Span.end_char (Doc.ents doc) /\
    map EntityRecord.label (PredictOut.entities Toy.hello_out)
      = map Span.label_ (Doc.ents doc) /\
    forall i,
      nth_error (PredictOut.entities Toy.hello_out) i
      = option_map entity_record (nth_error (Doc.ents doc) i).
Proof.
  apply (entities_mirror_model Toy.nlp Toy.hello
           [] [NlpCall Toy.hello_text] Toy.hello_out).
  reflexivity.
Defined.

Lemma domain_echoed_witness :
  PredictOut.domain Toy.override_out = lit "test".
Proof.
  apply (domain_echoed Toy.nlp Toy.override
           [] [NlpCall (lit "Hello world")] Toy.override_out).
  reflexivity.
Defined.

(* ------------------------------------------------------------------ *)
(** ** The liveness probe and the serving loop *)

Lemma serve_app (nlp : Language) (a b : list request) (w : world) :
  serve nlp (a ++ b) w =
  (fst (serve nlp a w) ++ fst (serve nlp b (snd (serve nlp a w))),
   snd (serve nlp b (snd (serve nlp a w)))).
Proof.
  revert w. induction a as [|req a IH]; intros w; simpl.
  - destruct (serve nlp b w); reflexivity.
  - destruct (dispatch nlp req w) as [r w1]. rewrite IH.
    destruct (serve nlp a w1) as [ra wa]. simpl.
    destruct (serve nlp b wa) as [rb wb]. reflexivity.
Qed.

(** C8.  [health] returns the dictionary with the single item
    [status: ok] and leaves the trace as it found it, from any state;
    so a [GET /health] placed anywhere in a sequence of requests is
    answered with that dictionary, and the other replies and the final
    trace are those of the sequence without it. *)
Theorem health_always_ok :
  (forall w : world, health w = (inr status_ok, w)) /\
  status_ok = [(lit "status", lit "ok")] /\
  (forall (nlp : Language) (before after : list request) (w : world),
     serve nlp (before ++ GET_health :: after) w =
     (fst (serve nlp before w)
        ++ HealthReply (inr status_ok)
        :: fst (serve nlp after (snd (serve nlp before w))),
      snd (serve nlp (before ++ after) w))).
Proof.
  split; [reflexivity|]. split; [reflexivity|].
  intros nlp before after w.
  rewrite !serve_app. simpl.
  destruct (serve nlp after (snd (serve nlp before w))); reflexivity.
Qed.

(* ------------------------------------------------------------------ *)
(** ** Start-up *)

Lemma loads_app (a b : world) : loads (a ++ b) = loads a + loads b.
Proof. unfold loads. now rewrite filter_app, length_app. Qed.

Lemma nlp_calls_app (a b : world) : nlp_calls (a ++ b) = nlp_calls a + nlp_calls b.
Proof. unfold nlp_calls. now rewrite filter_app, length_app. Qed.

(** Serving requests never loads a model. *)
Lemma dispatch_loads (nlp : Language) (req : request) (w : world) :
  loads (snd (dispatch nlp req w)) = loads w.
Proof.
  destruct req as [b|]; simpl; [|reflexivity].
  destruct (post_predict nlp b w) as [r w1] eqn:E. simpl.
  destruct (Body.text b) as [s|] eqn:T.
  - rewrite (post_predict_some nlp b s w T) in E.
    set (q := PredictIn.mk s (Body.tokens b) (Body.domain b)) in E.
    destruct (blank (PredictIn.text q)) eqn:B.
    + rewrite (predict_blank nlp q w B) in E. now injection E as _ <-.
    + rewrite (predict_valid nlp q w B) in E. injection E as _ <-.
      rewrite loads_app. unfold loads. simpl. lia.
  - rewrite (post_predict_none nlp b w T) in E. now injection E as _ <-.
Qed.

Lemma serve_loads (nlp : Language) (reqs : list request) (w : world) :
  loads (snd (serve nlp reqs w)) = loads w.
Proof.
  revert w. induction reqs as [|req reqs IH]; intros w; simpl; [reflexivity|].
  pose proof (dispatch_loads nlp req w) as D.
  destruct (dispatch nlp req w) as [r w1]. simpl in D.
  specialize (IH w1). destruct (serve nlp reqs w1) as [rs w2]. simpl in *. lia.
Qed.

(** C9.  If the model cannot be loaded, the process stops with a
    [RuntimeError] whose message tells how to install it; no request is
    answered, the load was attempted once, and the pipeline was never
    called. *)
Theorem load_failure_is_fatal
  (installed : str -> option Language) (reqs : list request) (w : world) :
  installed (lit "en_core_web_sm") = None ->
  run installed reqs w =
    (inl (RuntimeError (lit "Run: python -m spacy download en_core_web_sm")),
     w ++ [SpacyLoad (lit "en_core_web_sm")]) /\
  loads (snd (run installed reqs w)) = loads w + 1 /\
  nlp_calls (snd (run installed reqs w)) = nlp_calls w.
Proof.
  intros H.
  assert (R : run installed reqs w =
    (inl (RuntimeError (lit "Run: python -m spacy download en_core_web_sm")),
     w ++ [SpacyLoad (lit "en_core_web_sm")])).
  { unfold run, bind, load_nlp, try_except, spacy_load, raise.
    rewrite H. reflexivity. }
  split; [exact R|]. rewrite R. simpl.
  rewrite loads_app, nlp_calls_app. unfold loads, nlp_calls. simpl. split; lia.
Qed.

Lemma load_failure_is_fatal_witness :
  run Toy.empty [POST_predict Toy.blank_body; GET_health] [] =
    (inl (RuntimeError (lit "Run: python -m spacy download en_core_web_sm")),
     [] ++ [SpacyLoad (lit "en_core_web_sm")]) /\
  loads (snd (run Toy.empty [POST_predict Toy.blank_body; GET_health] []))
    = loads [] + 1 /\
  nlp_calls (snd (run Toy.empty [POST_predict Toy.blank_body; GET_health] []))
    = nlp_calls [].
Proof.
  apply (load_failure_is_fatal Toy.empty
           [POST_predict Toy.blank_body; GET_health] []).
  reflexivity.
Defined.

(* ------------------------------------------------------------------ *)
(** ** The handlers at work *)

(** A whole run: the model loads in the launching and in the serving
    process, a blank text is refused, a text with caller tokens is
    answered with them, and the probe answers [ok]. *)
Example run_installed :
  run Toy.installed
    [ POST_predict Toy.blank_body;
      POST_predict (Body.mk (Some (lit "Hello world"))
                      (Some [lit "Hi"; lit "there"]) (Some (lit "test")));
      GET_health ] []
  = (inr [ PredictReply (inl (HTTPException 400 (lit "Text is required")));
           PredictReply (inr Toy.override_out);
           HealthReply (inr status_ok) ],
     [ SpacyLoad (lit "en_core_web_sm"); SpacyLoad (lit "en_core_web_sm");
       NlpCall (lit "Hello world") ]).
Proof. reflexivity. Qed.

(** A pipeline that raises surfaces as a server fault, and only for a
    text that passed the check. *)
Example broken_pipeline_is_server_fault :
  predict Toy.broken Toy.hello [] = (inl LibraryError, [NlpCall Toy.hello_text]) /\
  server_fault (status_of (fst (predict Toy.broken Toy.hello []))) = true /\
  predict Toy.broken Toy.spaces [] =
    (inl (HTTPException 400 (lit "Text is required")), []).
Proof. repeat split. Qed.

(** Whitespace beyond ASCII is stripped too. *)
Example strip_unicode_space :
  strip ([160; 8195] ++ lit "Dobby" ++ [12288; 10])%N = lit "Dobby".
Proof. reflexivity. Qed.

(* ------------------------------------------------------------------ *)
(** ** More on [strip] and slices *)

(** Whitespace around a string does not change what [strip] returns. *)
Lemma strip_app_blank (l s r : str) :
  blank l = true -> blank r = true -> strip (l ++ s ++ r) = strip s.
Proof.
  intros Hl Hr. symmetry. apply trimmed_unique.
  destruct (strip_trimmed s) as (l' & r' & Hs & Hl' & Hr' & Hhd & Hlast).
  exists (l ++ l'), (r' ++ r). repeat split.
  - rewrite Hs at 1. now rewrite <- !app_assoc.
  - rewrite blank_app, Hl, Hl'. reflexivity.
  - rewrite blank_app, Hr, Hr'. reflexivity.
  - exact Hhd.
  - exact Hlast.
Qed.

Lemma strip_idempotent (s : str) : strip (strip s) = strip s.
Proof.
  symmetry. apply trimmed_unique.
  destruct (strip_trimmed s) as (l' & r' & _ & _ & _ & Hhd & Hlast).
  exists [], []. repeat split.
  - now rewrite app_nil_r.
  - exact Hhd.
  - exact Hlast.
Qed.

Lemma blank_strip (s : str) : blank s = false -> blank (strip s) = false.
Proof.
  intros B. apply strip_not_nil_iff. rewrite strip_idempotent.
  apply strip_not_nil_iff. exact B.
Qed.

(** A string is its leading whitespace, its stripped part and a blank
    rest. *)
Lemma strip_decompose (s : str) :
  exists r, s = take_while isspace s ++ strip s ++ r /\ blank r = true.
Proof.
  unfold strip, rstrip, lstrip.
  set (m := drop_while isspace s).
  destruct (drop_while_suffix isspace (rev m)) as (r0 & Hm & Hr0).
  exists (rev r0). split.
  - rewrite <- rev_app_distr, <- Hm, rev_involutive.
    symmetry. apply take_drop_while.
  - unfold blank. rewrite forallb_rev. exact Hr0.
Qed.

Lemma forallb_over_map {A B} (f : B -> bool) (g : A -> B) (l : list A) :
  forallb f (map g l) = forallb (fun x => f (g x)) l.
Proof.
  induction l as [|x l IH]; simpl; [reflexivity | now rewrite IH].
Qed.

(** Slicing inside the middle part of a concatenation. *)
Lemma slice_shift (l t r : str) (a b : Z) :
  (0 <= a <= Z.of_nat (List.length t))%Z ->
  (0 <= b <= Z.of_nat (List.length t))%Z ->
  slice (l ++ t ++ r) (a + Z.of_nat (List.length l)) (b + Z.of_nat (List.length l))
  = slice t a b.
Proof.
  intros Ha Hb. unfold slice, adjust_index.
  rewrite !length_app, !Nat2Z.inj_add.
  destruct (Z.ltb_spec (a + Z.of_nat (List.length l)) 0); [lia|].
  destruct (Z.ltb_spec (b + Z.of_nat (List.length l)) 0); [lia|].
  destruct (Z.ltb_spec a 0); [lia|].
  destruct (Z.ltb_spec b 0); [lia|].
  rewrite !Z.min_l by lia.
  replace (b + Z.of_nat (List.length l) - (a + Z.of_nat (List.length l)))%Z
    with (b - a)%Z by lia.
  replace (Z.to_nat (a + Z.of_nat (List.length l)))
    with (List.length l + Z.to_nat a) by lia.
  rewrite skipn_app, skipn_all2 by lia.
  replace (List.length l + Z.to_nat a - List.length l) with (Z.to_nat a) by lia.
  simpl. rewrite skipn_app, firstn_app.
  replace (Z.to_nat (b - a) - List.length (skipn (Z.to_nat a) t)) with 0
    by (rewrite length_skipn; lia).
  simpl. apply app_nil_r.
Qed.

(* ------------------------------------------------------------------ *)
(** ** Further properties of [predict] *)

Section Outcomes.
Variable nlp : Language.

(** X1.  The call [nlp(text)] is not guarded: when the text is not blank
    and the pipeline raises, [predict] fails with the library's
    exception, which the framework answers as a server fault (500), not
    as a client error. *)
Theorem model_failure_is_server_fault (p : PredictIn.t) (w : world) :
  blank (PredictIn.text p) = false ->
  nlp (strip (PredictIn.text p)) = None ->
  fst (predict nlp p w) = inl LibraryError /\
  status_of (fst (predict nlp p w)) = 500%Z /\
  server_fault (status_of (fst (predict nlp p w))) = true /\
  client_error (status_of (fst (predict nlp p w))) = false /\
  is_text_required (fst (predict nlp p w)) = false.
Proof.
  intros B D. rewrite (predict_valid nlp p w B), D. simpl. repeat split.
Qed.

(** X2.  Whenever the text is not blank, [predict] calls the pipeline
    exactly once, on the stripped text; this holds whether or not the
    caller sent tokens, and whether or not the pipeline answers. *)
Theorem model_called_once_on_stripped_text (p : PredictIn.t) (w : world) :
  blank (PredictIn.text p) = false ->
  snd (predict nlp p w) = w ++ [NlpCall (strip (PredictIn.text p))] /\
  nlp_calls (snd (predict nlp p w)) = nlp_calls w + 1 /\
  loads (snd (predict nlp p w)) = loads w.
Proof.
  intros B. rewrite (predict_valid nlp p w B). simpl.
  rewrite nlp_calls_app, loads_app. unfold nlp_calls, loads. simpl.
  repeat split; lia.
Qed.

(** X3.  [predict] fails in two ways only: with 400 "Text is required",
    exactly on a blank text and before any library call; or with the
    exception the pipeline raised on the stripped text. *)
Theorem predict_failures_exhaustive
  (p : PredictIn.t) (w w' : world) (e : exn) :
  predict nlp p w = (inl e, w') ->
  (e = HTTPException 400 (lit "Text is required") /\
   blank (PredictIn.text p) = true /\ w' = w)
  \/
  (e = LibraryError /\
   blank (PredictIn.text p) = false /\
   nlp (strip (PredictIn.text p)) = None /\
   w' = w ++ [NlpCall (strip (PredictIn.text p))]).
Proof.
  destruct (blank (PredictIn.text p)) eqn:B.
  - rewrite (predict_blank nlp p w B). intros H. injection H as <- <-.
    left. repeat split.
  - rewrite (predict_valid nlp p w B).
    destruct (nlp (strip (PredictIn.text p))) as [doc|] eqn:D; [discriminate|].
    intros H. injection H as <- <-. right. repeat split.
Qed.

(** X4.  The response's text is a fixed point: sending it back as the
    request's text, with the same tokens and domain, gives the same
    response and the same library call. *)
Theorem resubmitted_text_same_response
  (p : PredictIn.t) (w w' : world) (resp : PredictOut.t) :
  predict nlp p w = (inr resp, w') ->
  predict nlp (with_text p (PredictOut.text resp)) w = (inr resp, w').
Proof.
  intros Hok.
  destruct (predict_ok_inv nlp p w w' resp Hok) as (B & -> & doc & Hd & ->).
  simpl. rewrite predict_valid by (simpl; apply blank_strip; exact B).
  simpl. rewrite strip_idempotent, Hd. reflexivity.
Qed.

(** X5.  Whitespace added in front of or behind the text changes nothing:
    the outcome and the library call are those of the unpadded text. *)
Theorem surrounding_whitespace_ignored
  (p : PredictIn.t) (l r : str) (w : world) :
  blank l = true ->
  blank r = true ->
  predict nlp (with_text p (l ++ PredictIn.text p ++ r)) w = predict nlp p w.
Proof.
  intros Hl Hr. unfold predict, with_text. simpl.
  rewrite !or_nil_r, (strip_app_blank l (PredictIn.text p) r Hl Hr).
  reflexivity.
Qed.

(** X6.  [tokens] and [domain] take no part in the processing: two
    requests with the same text fail alike or get responses with the
    same [text] and [entities], and make the same library call. *)
Theorem tokens_and_domain_not_processed
  (s : str) (t t' : option (list str)) (d d' : option str) (w : world) :
  same_annotation (fst (predict nlp (PredictIn.mk s t d) w))
                  (fst (predict nlp (PredictIn.mk s t' d') w)) /\
  snd (predict nlp (PredictIn.mk s t d) w)
  = snd (predict nlp (PredictIn.mk s t' d') w).
Proof.
  destruct (blank s) eqn:B.
  - rewrite !predict_blank by exact B. simpl. split; reflexivity.
  - rewrite !predict_valid by exact B. simpl.
    destruct (nlp (strip s)); simpl; repeat split.
Qed.

(** X7.  Offsets in the response index the stripped text.  In the text
    as the caller sent it, the same characters sit further right by the
    number of whitespace characters stripped in front: for bounds [a], [b]
    inside the response's text, [request_text[a+k : b+k]] equals
    [response_text[a:b]], with [k] that number. *)
Theorem offsets_shift_by_leading_whitespace
  (p : PredictIn.t) (w w' : world) (resp : PredictOut.t) (a b : Z) :
  predict nlp p w = (inr resp, w') ->
  (0 <= a <= Z.of_nat (List.length (PredictOut.text resp)))%Z ->
  (0 <= b <= Z.of_nat (List.length (PredictOut.text resp)))%Z ->
  slice (PredictIn.text p)
        (a + Z.of_nat (leading (PredictIn.text p)))
        (b + Z.of_nat (leading (PredictIn.text p)))
  = slice (PredictOut.text resp) a b.
Proof.
  intros Hok.
  destruct (predict_ok_inv nlp p w w' resp Hok) as (_ & _ & doc & _ & ->).
  simpl. intros Ha Hb.
  destruct (strip_decompose (PredictIn.text p)) as (r & Hs & _).
  rewrite Hs at 1. unfold leading. apply slice_shift; assumption.
Qed.

(** X8.  The status [predict]'s outcome is answered with, case by case:
    400 when the text is blank; 500 when the pipeline raises; 500 when
    the pipeline answers but a string of the response (the stripped
    text, an entity's label or text, a token, the domain) holds a
    surrogate and cannot be encoded; 200 otherwise. *)
Theorem predict_status (p : PredictIn.t) (w : world) :
  status_of (fst (predict nlp p w)) =
  if blank (PredictIn.text p) then 400%Z
  else match nlp (strip (PredictIn.text p)) with
       | None => 500%Z
       | Some doc =>
           if encodable (strip (PredictIn.text p))
              && forallb (fun e => encodable (Span.label_ e)
                                   && encodable (Span.text e))
                         (Doc.ents doc)
              && forallb encodable (chosen_tokens (PredictIn.tokens p) doc)
              && encodable (opt_or (PredictIn.domain p) [])
           then 200%Z else 500%Z
       end.
Proof.
  destruct (blank (PredictIn.text p)) eqn:B.
  - rewrite predict_blank by exact B. reflexivity.
  - rewrite predict_valid by exact B. simpl.
    destruct (nlp (strip (PredictIn.text p))) as [doc|]; [|reflexivity].
    unfold status_of, renderable. simpl.
    rewrite forallb_over_map. reflexivity.
Qed.



End Outcomes.

(** Handling a request only appends pipeline calls to the trace. *)
Lemma dispatch_extends (nlp : Language) (req : request) (w : world) :
  exists t, snd (dispatch nlp req w) = w ++ t /\ forallb is_nlp_call t = true.
Proof.
  destruct req as [b|]; simpl.
  - destruct (post_predict nlp b w) as [r w1] eqn:E. simpl.
    destruct (Body.text b) as [s|] eqn:T.
    + rewrite (post_predict_some nlp b s w T) in E.
      set (q := PredictIn.mk s (Body.tokens b) (Body.domain b)) in E.
      destruct (blank (PredictIn.text q)) eqn:B.
      * rewrite (predict_blank nlp q w B) in E. injection E as _ <-.
        exists []. now rewrite app_nil_r.
      * rewrite (predict_valid nlp q w B) in E. injection E as _ <-.
        eexists. split; reflexivity.
    + rewrite (post_predict_none nlp b w T) in E. injection E as _ <-.
      exists []. now rewrite app_nil_r.
  - exists []. now rewrite app_nil_r.
Qed.

Lemma serve_extends (nlp : Language) (reqs : list request) (w : world) :
  exists t, snd (serve nlp reqs w) = w ++ t /\ forallb is_nlp_call t = true.
Proof.
  revert w. induction reqs as [|req reqs IH]; intros w; simpl.
  - exists []. now rewrite app_nil_r.
  - destruct (dispatch_extends nlp req w) as (t1 & H1 & F1).
    destruct (dispatch nlp req w) as [r w1]. simpl in H1. subst w1.
    destruct (IH (w ++ t1)) as (t2 & H2 & F2).
    destruct (serve nlp reqs (w ++ t1)) as [rs w2]. simpl in *. subst w2.
    exists (t1 ++ t2). split; [now rewrite app_assoc|].
    now rewrite forallb_app, F1, F2.
Qed.

(** X9.  Handling requests never loads a model: over any sequence of
    requests the trace grows by pipeline calls only, so the number of
    [spacy.load] calls stays what it was when serving began. *)
Theorem serving_never_loads
  (nlp : Language) (reqs : list request) (w : world) :
  exists t,
    snd (serve nlp reqs w) = w ++ t /\
    forallb is_nlp_call t = true /\
    loads t = 0 /\
    loads (snd (serve nlp reqs w)) = loads w.
Proof.
  destruct (serve_extends nlp reqs w) as (t & Ht & Ft).
  exists t. split; [exact Ht|]. split; [exact Ft|].
  assert (L : loads t = 0).
  { clear Ht. unfold loads. induction t as [|x t IH]; [reflexivity|].
    simpl in Ft. apply andb_prop in Ft. destruct Ft as [Fx Ft].
    destruct x; simpl in *; [discriminate | exact (IH Ft)]. }
  split; [exact L|]. rewrite Ht, loads_app, L. lia.
Qed.

(* ------------------------------------------------------------------ *)
(** ** Instances on the small pipeline *)

Lemma model_failure_is_server_fault_witness :
  fst (predict Toy.broken Toy.hello []) = inl LibraryError /\
  status_of (fst (predict Toy.broken Toy.hello [])) = 500%Z /\
  server_fault (status_of (fst (predict Toy.broken Toy.hello []))) = true /\
  client_error (status_of (fst (predict Toy.broken Toy.hello []))) = false /\
  is_text_required (fst (predict Toy.broken Toy.hello [])) = false.
Proof.
  apply (model_failure_is_server_fault Toy.broken Toy.hello []); reflexivity.
Defined.

Lemma model_called_once_on_stripped_text_witness :
  snd (predict Toy.nlp Toy.override [])
    = [] ++ [NlpCall (strip (PredictIn.text Toy.override))] /\
  nlp_calls (snd (predict Toy.nlp Toy.override [])) = nlp_calls [] + 1 /\
  loads (snd (predict Toy.nlp Toy.override [])) = loads [].
Proof.
  apply (model_called_once_on_stripped_text Toy.nlp Toy.override []).
  reflexivity.
Defined.

Lemma predict_failures_exhaustive_witness :
  (LibraryError = HTTPException 400 (lit "Text is required") /\
   blank (PredictIn.text Toy.hello) = true /\
   [NlpCall Toy.hello_text] = [])
  \/
  (LibraryError = LibraryError /\
   blank (PredictIn.text Toy.hello) = false /\
   Toy.broken (strip (PredictIn.text Toy.hello)) = None /\
   [NlpCall Toy.hello_text]
     = [] ++ [NlpCall (strip (PredictIn.text Toy.hello))]).
Proof.
  apply (predict_failures_exhaustive Toy.broken Toy.hello
           [] [NlpCall Toy.hello_text] LibraryError).
  reflexivity.
Defined.

Lemma resubmitted_text_same_response_witness :
  predict Toy.nlp (with_text Toy.hello (PredictOut.text Toy.hello_out)) []
  = (inr Toy.hello_out, [NlpCall Toy.hello_text]).
Proof.
  apply (resubmitted_text_same_response Toy.nlp Toy.hello
           [] [NlpCall Toy.hello_text] Toy.hello_out).
  reflexivity.
Defined.

Lemma surrounding_whitespace_ignored_witness :
  predict Toy.nlp
    (with_text Toy.override
       ([32; 9]%N ++ PredictIn.text Toy.override ++ [13; 10; 160]%N)) []
  = predict Toy.nlp Toy.override [].
Proof.
  apply (surrounding_whitespace_ignored Toy.nlp Toy.override
           [32; 9]%N [13; 10; 160]%N []); reflexivity.
Defined.

Lemma offsets_shift_by_leading_whitespace_witness :
  slice (PredictIn.text Toy.hello)
        (10 + Z.of_nat (leading (PredictIn.text Toy.hello)))
        (18 + Z.of_nat (leading (PredictIn.text Toy.hello)))
  = slice (PredictOut.text Toy.hello_out) 10 18.
Proof.
  apply (offsets_shift_by_leading_whitespace Toy.nlp Toy.hello
           [] [NlpCall Toy.hello_text] Toy.hello_out 10 18);
    [reflexivity | simpl; lia | simpl; lia].
Defined.
